(** * Verification of uniffi_bindgen's library mode (src/uniffi_bindgen/src/library_mode.rs)

    A shallow embedding of [calc_cdylib_name], [find_sources] and
    [generate_external_bindings].  Strings are [String.string]; Rust
    [Result] is [result]; the calls to external code (the binding generator,
    the metadata extractor, the configuration loader, the file system) are
    section variables, and every call is recorded in an event log carried by
    a small writer/error monad. *)

From Stdlib Require Import String Ascii List Bool Arith Lia Permutation.
Import ListNotations.
Open Scope string_scope.
Open Scope list_scope.

(** ** Rust [Result] *)

Inductive result (T E : Type) : Type :=
| Ok (t : T)
| Err (e : E).
Arguments Ok {T E} t.
Arguments Err {T E} e.

(** ** [str] helpers: [strip_prefix] and [strip_suffix] *)

Fixpoint strip_prefix (prefix s : string) : option string :=
  match prefix, s with
  | EmptyString, _ => Some s
  | String c p', String d s' => if Ascii.eqb c d then strip_prefix p' s' else None
  | String _ _, EmptyString => None
  end.

(** [s.strip_suffix(suffix)]: [Some r] exactly when [s = r ++ suffix]. *)
Fixpoint strip_suffix (suffix s : string) : option string :=
  if String.eqb s suffix then Some EmptyString
  else match s with
       | EmptyString => None
       | String c s' => option_map (String c) (strip_suffix suffix s')
       end.

(** ** [Utf8Path::file_name] on Unix paths

    [Path::components] drops empty segments (repeated or trailing
    separators) and the [.] segments; [file_name] is the last component
    when it is a normal one (not the root, not [.], not [..]). *)

Fixpoint path_segments (s : string) : list string :=
  match s with
  | EmptyString => [EmptyString]
  | String c s' =>
      let segs := path_segments s' in
      if Ascii.eqb c "/" then EmptyString :: segs
      else match segs with
           | seg :: rest => String c seg :: rest
           | [] => [String c EmptyString]
           end
  end.

Definition normal_segment (seg : string) : bool :=
  negb (String.eqb seg "") && negb (String.eqb seg ".").

Definition file_name (path : string) : option string :=
  match rev (filter normal_segment (path_segments path)) with
  | [] => None
  | seg :: _ => if String.eqb seg ".." then None else Some seg
  end.

(** ** [calc_cdylib_name] *)

Definition cdylib_extentions : list string := [".so"; ".dll"; ".dylib"].

(** The [for ext in cdylib_extentions] loop with its early return. *)
Fixpoint strip_first_suffix (exts : list string) (filename : string) : option string :=
  match exts with
  | [] => None
  | ext :: rest =>
      match strip_suffix ext filename with
      | Some f => Some f
      | None => strip_first_suffix rest filename
      end
  end.

Definition calc_cdylib_name (library_path : string) : option string :=
  match file_name library_path with
  | None => None
  | Some filename =>
      let filename :=
        match strip_prefix "lib" filename with
        | Some f => f
        | None => filename
        end in
      strip_first_suffix cdylib_extentions filename
  end.

(** The stem of a filename with a leading [lib] removed when present. *)
Definition strip_lib (stem : string) : string :=
  match strip_prefix "lib" stem with
  | Some f => f
  | None => stem
  end.

(** ** Metadata items and their grouping (crate uniffi_meta)

    [create_metadata_groups] and [group_metadata] live in uniffi_meta,
    outside this source tree; they are modelled from the spec (§3, §4.3). *)

Record NamespaceMetadata : Type := {
  crate_name_of : string;
  ns_name : string
}.

Definition namespace_eqb (a b : NamespaceMetadata) : bool :=
  String.eqb (crate_name_of a) (crate_name_of b) && String.eqb (ns_name a) (ns_name b).

(** A metadata item: either the namespace declaration of a crate, or a
    declared construct (function, record, ...) tagged with its crate. *)
Inductive Metadata : Type :=
| MNamespace (ns : NamespaceMetadata)
| MItem (crate_name : string) (decl : string).

Definition metadata_crate_name (m : Metadata) : string :=
  match m with
  | MNamespace ns => crate_name_of ns
  | MItem c _ => c
  end.

Record MetadataGroup : Type := {
  namespace : NamespaceMetadata;
  group_items : list Metadata
}.

(** The map from crate name to group, in first-seen order of namespaces. *)
Definition MetadataGroupMap : Type := list (string * MetadataGroup).

Fixpoint map_lookup (k : string) (m : MetadataGroupMap) : option MetadataGroup :=
  match m with
  | [] => None
  | (k', g) :: rest => if String.eqb k k' then Some g else map_lookup k rest
  end.

Fixpoint map_update (k : string) (g : MetadataGroup) (m : MetadataGroupMap) : MetadataGroupMap :=
  match m with
  | [] => []
  | (k', g') :: rest =>
      if String.eqb k k' then (k', g) :: rest else (k', g') :: map_update k g rest
  end.

(** Modelled from the spec: [create_metadata_groups] (uniffi_meta, not in
    this source tree).  A group is created on the first sighting of a
    namespace and appended after the groups already created. *)
Fixpoint add_namespace_group (m : MetadataGroupMap) (ns : NamespaceMetadata) : MetadataGroupMap :=
  match m with
  | [] => [(crate_name_of ns, {| namespace := ns; group_items := [] |})]
  | (k, g) :: rest =>
      if String.eqb k (crate_name_of ns) then m else (k, g) :: add_namespace_group rest ns
  end.

Definition create_metadata_groups (items : list Metadata) : MetadataGroupMap :=
  fold_left (fun m item =>
               match item with
               | MNamespace ns => add_namespace_group m ns
               | MItem _ _ => m
               end) items [].

Inductive GroupError : Type :=
| InconsistentNamespace (crate_name : string)
| UnknownNamespace (crate_name : string).

(** Modelled from the spec: [group_metadata] (uniffi_meta, not in this
    source tree).  Every declared item is appended to the group of its
    crate; an item whose crate has no group is a hard error, and so is a
    namespace declaration that disagrees with the one its group was
    created from. *)
Fixpoint group_metadata (m : MetadataGroupMap) (items : list Metadata)
  : result MetadataGroupMap GroupError :=
  match items with
  | [] => Ok m
  | MNamespace ns :: rest =>
      match map_lookup (crate_name_of ns) m with
      | Some g =>
          if namespace_eqb (namespace g) ns then group_metadata m rest
          else Err (InconsistentNamespace (crate_name_of ns))
      | None => Err (UnknownNamespace (crate_name_of ns))
      end
  | (MItem c d as item) :: rest =>
      match map_lookup c m with
      | Some g =>
          group_metadata
            (map_update c {| namespace := namespace g;
                             group_items := group_items g ++ [item] |} m) rest
      | None => Err (UnknownNamespace c)
      end
  end.

(** [.into_values()] of the group map.  The association list is read in
    first-seen order; the source promises no order ("in no particular
    order"), so this is one of the map's possible iteration orders, and
    [find_sources_iter] leaves the order open. *)
Definition into_values (m : MetadataGroupMap) : list MetadataGroup := map snd m.

(** Crate names of the namespace declarations, in item order. *)
Fixpoint namespace_names (items : list Metadata) : list string :=
  match items with
  | [] => []
  | MNamespace ns :: rest => crate_name_of ns :: namespace_names rest
  | MItem _ _ :: rest => namespace_names rest
  end.

(** The list with every repetition after the first removed: the names in
    the order they were first discovered. *)
Fixpoint first_seen (l : list string) : list string :=
  match l with
  | [] => []
  | x :: rest => x :: filter (fun y => negb (String.eqb x y)) (first_seen rest)
  end.

(** ** The orchestrator *)

Section LibraryMode.

(** The crate's [Error] type, [ComponentInterface] and a [Config]. *)
Context {Error ComponentInterface Config : Type}.

(** The [BindingGenerator] trait. *)
Record BindingGenerator : Type := {
  check_library_path : string -> option string -> result unit Error;
  write_bindings : ComponentInterface -> Config -> string -> option unit -> result unit Error
}.

(** The [BindingsConfig] trait. *)
Record BindingsConfig : Type := {
  update_from_cdylib_name : Config -> string -> Config;
  update_from_ci : Config -> ComponentInterface -> Config
}.

(** The external code [find_sources] and [generate_external_bindings] call. *)
Record Env : Type := {
  extract_from_library : string -> result (list Metadata) Error;
  ComponentInterface_new : string -> ComponentInterface;
  add_metadata : ComponentInterface -> MetadataGroup -> result ComponentInterface Error;
  load_initial_config : string -> option string -> result Config Error;
  create_dir_all : string -> result unit Error;
  (** [?] on the [anyhow] error of [group_metadata]. *)
  from_group_error : GroupError -> Error
}.

Record Source : Type := {
  crate_name : string;
  ci : ComponentInterface;
  config : Config
}.

(** The log of external calls, in the order they are made. *)
Inductive Event : Type :=
| ECheckLibraryPath (library_path : string) (cdylib_name : option string)
| EExtractFromLibrary (library_path : string)
| EAddMetadata (group : MetadataGroup)
| ELoadInitialConfig (crate_root : string) (config_path : option string)
| ECreateDirAll (out_dir : string)
| EWriteBindings (ci : ComponentInterface) (config : Config) (out_dir : string).

(** Writer/error monad: a result and the calls made to produce it. *)
Definition M (A : Type) : Type := result A Error * list Event.

Definition ret {A} (a : A) : M A := (Ok a, []).

Definition bind {A B} (m : M A) (f : A -> M B) : M B :=
  match m with
  | (Ok a, log) => let (r, log') := f a in (r, log ++ log')
  | (Err e, log) => (Err e, log)
  end.

Local Notation "x <- m ;; k" := (bind m (fun x => k))
  (at level 61, m at next level, right associativity).

(** A call to external code: logged, with its result. *)
Definition call {A} (ev : Event) (r : result A Error) : M A := (r, [ev]).

(** [.map(f).collect::<Result<Vec<_>>>()]: in order, stopping at the first error. *)
Fixpoint collect_map {A B} (f : A -> M B) (l : list A) : M (list B) :=
  match l with
  | [] => ret []
  | x :: rest => y <- f x ;; ys <- collect_map f rest ;; ret (y :: ys)
  end.

(** [for x in l { f(x)?; }] *)
Fixpoint for_each {A} (f : A -> M unit) (l : list A) : M unit :=
  match l with
  | [] => ret tt
  | x :: rest => _ <- f x ;; for_each f rest
  end.

Variable bindings_config : BindingsConfig.
Variable env : Env.

(** The closure mapped over the groups in [find_sources]. *)
Definition source_of_group (crate_root : string) (cdylib_name : option string)
    (group : MetadataGroup) : M Source :=
  let crate_name := crate_name_of (namespace group) in
  let ci0 := ComponentInterface_new env crate_name in
  ci <- call (EAddMetadata group) (add_metadata env ci0 group) ;;
  config <- call (ELoadInitialConfig crate_root None) (load_initial_config env crate_root None) ;;
  let config :=
    match cdylib_name with
    | Some cdylib_name => update_from_cdylib_name bindings_config config cdylib_name
    | None => config
    end in
  let config := update_from_ci bindings_config config ci in
  ret {| config := config; crate_name := crate_name; ci := ci |}.

Definition find_sources (crate_root library_path : string) (cdylib_name : option string)
  : M (list Source) :=
  items <- call (EExtractFromLibrary library_path) (extract_from_library env library_path) ;;
  let metadata_groups := create_metadata_groups items in
  metadata_groups <-
    (match group_metadata metadata_groups items with
     | Ok m => ret m
     | Err ge => (Err (from_group_error env ge), [])
     end) ;;
  collect_map (source_of_group crate_root cdylib_name) (into_values metadata_groups).

Definition generate_external_bindings (binding_generator : BindingGenerator)
    (library_path crate_root out_dir : string) : M (list Source) :=
  let cdylib_name := calc_cdylib_name library_path in
  _ <- call (ECheckLibraryPath library_path cdylib_name)
            (check_library_path binding_generator library_path cdylib_name) ;;
  sources <- find_sources crate_root library_path cdylib_name ;;
  _ <- call (ECreateDirAll out_dir) (create_dir_all env out_dir) ;;
  _ <- for_each (fun source =>
                   call (EWriteBindings (ci source) (config source) out_dir)
                        (write_bindings binding_generator (ci source) (config source) out_dir None))
                sources ;;
  ret sources.

(** [find_sources] with the iteration order of [metadata_groups.into_values()]
    made explicit.  The map's order is not fixed by the source (the doc
    comments of [generate_bindings] and [generate_external_bindings]: "in no
    particular order"); [iter] is that order, any arrangement of the groups.
    [find_sources] is the instance [iter := into_values]. *)
Definition find_sources_iter (iter : MetadataGroupMap -> list MetadataGroup)
    (crate_root library_path : string) (cdylib_name : option string) : M (list Source) :=
  items <- call (EExtractFromLibrary library_path) (extract_from_library env library_path) ;;
  let metadata_groups := create_metadata_groups items in
  metadata_groups <-
    (match group_metadata metadata_groups items with
     | Ok m => ret m
     | Err ge => (Err (from_group_error env ge), [])
     end) ;;
  collect_map (source_of_group crate_root cdylib_name) (iter metadata_groups).

Definition generate_external_bindings_iter (iter : MetadataGroupMap -> list MetadataGroup)
    (binding_generator : BindingGenerator) (library_path crate_root out_dir : string)
  : M (list Source) :=
  let cdylib_name := calc_cdylib_name library_path in
  _ <- call (ECheckLibraryPath library_path cdylib_name)
            (check_library_path binding_generator library_path cdylib_name) ;;
  sources <- find_sources_iter iter crate_root library_path cdylib_name ;;
  _ <- call (ECreateDirAll out_dir) (create_dir_all env out_dir) ;;
  _ <- for_each (fun source =>
                   call (EWriteBindings (ci source) (config source) out_dir)
                        (write_bindings binding_generator (ci source) (config source) out_dir None))
                sources ;;
  ret sources.

End LibraryMode.

(** ** Auxiliary definitions used by the proofs *)

(** No character of the string is a dot. *)
Fixpoint no_dot (s : string) : bool :=
  match s with
  | EmptyString => true
  | String c s' => negb (Ascii.eqb c ".") && no_dot s'
  end.

(** No character of the string is a path separator. *)
Fixpoint no_slash (s : string) : bool :=
  match s with
  | EmptyString => true
  | String c s' => negb (Ascii.eqb c "/") && no_slash s'
  end.

(** The last character of a string. *)
Fixpoint last_char (s : string) : option ascii :=
  match s with
  | EmptyString => None
  | String c EmptyString => Some c
  | String _ s' => last_char s'
  end.

(** [c] is not among [keys]. *)
Definition key_absent (keys : list string) (c : string) : bool :=
  negb (existsb (fun k => String.eqb k c) keys).

(** Every group is stored under the crate name of its namespace. *)
Definition keyed_by_crate (m : MetadataGroupMap) : Prop :=
  Forall (fun kg => fst kg = crate_name_of (namespace (snd kg))) m.

(** Events that change the file system. *)
Definition fs_effect {ComponentInterface Config : Type} (ev : @Event ComponentInterface Config) : bool :=
  match ev with
  | ECreateDirAll _ | EWriteBindings _ _ _ => true
  | _ => false
  end.

(** ** A concrete instance, used to run the definitions *)

Definition demo_items : list Metadata :=
  [MNamespace {| crate_name_of := "core"; ns_name := "core" |};
   MItem "core" "fn add";
   MNamespace {| crate_name_of := "net"; ns_name := "net" |};
   MItem "net" "fn fetch";
   MItem "core" "record Point"].

Definition demo_config : @BindingsConfig string string :=
  {| update_from_cdylib_name := fun c n => (c ++ "+cdylib:" ++ n)%string;
     update_from_ci := fun c ci => (c ++ "+ci:" ++ ci)%string |}.

Definition demo_env (items : result (list Metadata) string) : @Env string string string :=
  {| extract_from_library := fun _ => items;
     ComponentInterface_new := fun n => n;
     add_metadata := fun ci g => Ok (ci ++ "/" ++ String.concat "," (map metadata_crate_name (group_items g)))%string;
     load_initial_config := fun root _ => Ok ("base:" ++ root)%string;
     create_dir_all := fun _ => Ok tt;
     from_group_error := fun _ => "group error" |}.

Definition demo_generator : @BindingGenerator string string string :=
  {| check_library_path := fun _ _ => Ok tt;
     write_bindings := fun _ _ _ _ => Ok tt |}.


(** A generator that refuses every library. *)
Definition demo_generator_unsupported : @BindingGenerator string string string :=
  {| check_library_path := fun _ _ => Err "unsupported library";
     write_bindings := fun _ _ _ _ => Ok tt |}.

Definition demo_run :=
  generate_external_bindings demo_config (demo_env (Ok demo_items)) demo_generator
    "/target/debug/libcore.so" "/crate" "/out".

Definition demo_sources : list (@Source string string) :=
  match fst demo_run with Ok sources => sources | Err _ => [] end.

Definition demo_log := snd demo_run.


(** A generator whose [write_bindings] fails for the interface of [net]. *)
Definition demo_generator_net_write_fails : @BindingGenerator string string string :=
  {| check_library_path := fun _ _ => Ok tt;
     write_bindings := fun ci _ _ _ =>
       if String.eqb ci "net/net" then Err "net: disk full" else Ok tt |}.

(** Metadata with a declaration of a crate that has no namespace. *)
Definition demo_orphan_items : list Metadata :=
  [MNamespace {| crate_name_of := "core"; ns_name := "core" |};
   MItem "util" "fn helper"].

(** A legitimate iteration order of the group map: the reverse of the
    first-seen order. *)
Definition demo_reverse_order (m : MetadataGroupMap) : list MetadataGroup := rev (into_values m).

(** * Name resolution: [calc_cdylib_name] *)

Module NameResolver.

Lemma strip_prefix_app (p s : string) : strip_prefix p (p ++ s) = Some s.
Proof.
  induction p as [|c p IH]; simpl; [reflexivity|].
  rewrite Ascii.eqb_refl. exact IH.
Qed.

Lemma strip_prefix_some (p s r : string) : strip_prefix p s = Some r -> s = (p ++ r)%string.
Proof.
  revert s. induction p as [|c p IH]; intros s H; simpl in *.
  - congruence.
  - destruct s as [|d s]; [discriminate|].
    destruct (Ascii.eqb c d) eqn:Ecd; [|discriminate].
    apply Ascii.eqb_eq in Ecd. subst d. f_equal. apply IH, H.
Qed.


(** Appending a dot-led suffix commutes with stripping a dot-free prefix. *)
Lemma strip_prefix_app_dot (p s e : string) :
  no_dot p = true ->
  strip_prefix p (s ++ String "." e) = option_map (fun f => f ++ String "." e)%string (strip_prefix p s).
Proof.
  revert s. induction p as [|c p IH]; intros s Hp; simpl; [reflexivity|].
  simpl in Hp. apply andb_prop in Hp as [Hc Hp].
  destruct s as [|d s]; simpl.
  - destruct (Ascii.eqb c ".") eqn:E; [discriminate|reflexivity].
  - destruct (Ascii.eqb c d); [apply IH, Hp|reflexivity].
Qed.

Lemma length_append (a b : string) : String.length (a ++ b) = String.length a + String.length b.
Proof. induction a as [|c a IH]; simpl; congruence. Qed.

Lemma append_assoc (a b c : string) : (a ++ (b ++ c))%string = ((a ++ b) ++ c)%string.
Proof. induction a as [|x a IH]; simpl; congruence. Qed.

Lemma strip_suffix_equation (suffix s : string) :
  strip_suffix suffix s =
  if String.eqb s suffix then Some EmptyString
  else match s with
       | EmptyString => None
       | String c s' => option_map (String c) (strip_suffix suffix s')
       end.
Proof. destruct s; reflexivity. Qed.

Lemma strip_suffix_app (suffix x : string) : strip_suffix suffix (x ++ suffix) = Some x.
Proof.
  induction x as [|c x IH]; rewrite strip_suffix_equation.
  - simpl. rewrite String.eqb_refl. reflexivity.
  - destruct (String.eqb (String c x ++ suffix) suffix) eqn:E.
    + apply String.eqb_eq in E.
      assert (Hl := f_equal String.length E). simpl in Hl.
      rewrite length_append in Hl. lia.
    + simpl. rewrite IH. reflexivity.
Qed.

Lemma strip_suffix_some (suffix s r : string) : strip_suffix suffix s = Some r -> s = (r ++ suffix)%string.
Proof.
  revert r. induction s as [|c s IH]; intros r H; rewrite strip_suffix_equation in H.
  - destruct (String.eqb "" suffix) eqn:E; [|discriminate].
    apply String.eqb_eq in E. injection H as <-. subst. reflexivity.
  - destruct (String.eqb (String c s) suffix) eqn:E.
    + apply String.eqb_eq in E. injection H as <-. subst. reflexivity.
    + destruct (strip_suffix suffix s) as [r'|] eqn:Er; [|discriminate].
      simpl in H. injection H as <-. simpl. f_equal. apply IH. reflexivity.
Qed.


Lemma last_char_app (x y : string) : y <> EmptyString -> last_char (x ++ y) = last_char y.
Proof.
  intros Hy. induction x as [|c x IH]; simpl; [reflexivity|].
  rewrite IH. destruct x; simpl; [destruct y; [congruence|reflexivity]|reflexivity].
Qed.

Lemma strip_suffix_last_char (suffix x y : string) :
  suffix <> EmptyString -> y <> EmptyString -> last_char suffix <> last_char y ->
  strip_suffix suffix (x ++ y) = None.
Proof.
  intros Hs Hy Hne. destruct (strip_suffix suffix (x ++ y)) as [r|] eqn:E; [|reflexivity].
  apply strip_suffix_some in E.
  assert (Hl := f_equal last_char E).
  rewrite !last_char_app in Hl by assumption. congruence.
Qed.

Lemma strip_first_suffix_some (exts : list string) (f r : string) :
  strip_first_suffix exts f = Some r -> exists ext, In ext exts /\ f = (r ++ ext)%string.
Proof.
  induction exts as [|ext exts IH]; simpl; [discriminate|].
  destruct (strip_suffix ext f) as [f'|] eqn:E.
  - intros H. injection H as <-. exists ext. split; [left; reflexivity|].
    apply strip_suffix_some, E.
  - intros H. destruct (IH H) as [e [He Hf]]. exists e. split; [right; exact He|exact Hf].
Qed.

Lemma strip_first_suffix_ext (x ext : string) :
  In ext cdylib_extentions -> strip_first_suffix cdylib_extentions (x ++ ext) = Some x.
Proof.
  intros Hin. unfold cdylib_extentions in *. simpl in Hin.
  destruct Hin as [<-|[<-|[<-|[]]]]; simpl strip_first_suffix.
  - rewrite strip_suffix_app. reflexivity.
  - rewrite strip_suffix_last_char by (simpl; discriminate).
    rewrite strip_suffix_app. reflexivity.
  - rewrite !strip_suffix_last_char by (simpl; discriminate).
    rewrite strip_suffix_app. reflexivity.
Qed.

Lemma cdylib_extention_dot (ext : string) :
  In ext cdylib_extentions -> exists e, ext = String "." e.
Proof.
  unfold cdylib_extentions. simpl.
  intros [<-|[<-|[<-|[]]]]; eexists; reflexivity.
Qed.

(** Stripping [lib] from [stem ++ ext] strips it from [stem]. *)
Lemma strip_lib_app_ext (stem ext : string) :
  In ext cdylib_extentions ->
  match strip_prefix "lib" (stem ++ ext) with Some f => f | None => (stem ++ ext)%string end
  = (strip_lib stem ++ ext)%string.
Proof.
  intros Hin. destruct (cdylib_extention_dot ext Hin) as [e ->].
  rewrite strip_prefix_app_dot by reflexivity.
  unfold strip_lib. destruct (strip_prefix "lib" stem); reflexivity.
Qed.

(** C1: a filename [stem ++ ext] with [ext] one of [.so], [.dll],
    [.dylib] resolves to [stem] with a leading [lib] removed when present,
    whatever the extension; a path without a filename, or whose filename
    has none of these extensions, resolves to [None]. *)
Theorem calc_cdylib_name_conventions (path : string) :
  (forall filename stem ext,
      file_name path = Some filename ->
      In ext cdylib_extentions ->
      filename = (stem ++ ext)%string ->
      calc_cdylib_name path = Some (strip_lib stem)) /\
  ((file_name path = None \/
    exists filename, file_name path = Some filename /\
      forall stem ext, In ext cdylib_extentions -> filename <> (stem ++ ext)%string) ->
   calc_cdylib_name path = None).
Proof.
  split.
  - intros filename stem ext Hf Hin ->. unfold calc_cdylib_name. rewrite Hf.
    rewrite strip_lib_app_ext by exact Hin.
    apply strip_first_suffix_ext, Hin.
  - intros H. unfold calc_cdylib_name.
    destruct (file_name path) as [filename|] eqn:Hf; [|reflexivity].
    destruct H as [H|[filename' [H Hnot]]]; [discriminate|].
    injection H as <-.
    destruct (strip_first_suffix cdylib_extentions _) as [r|] eqn:Hs; [|reflexivity].
    exfalso. apply strip_first_suffix_some in Hs as [ext [Hin Heq]].
    destruct (strip_prefix "lib" filename) as [f|] eqn:Hp.
    + apply strip_prefix_some in Hp. subst f.
      apply (Hnot ("lib" ++ r)%string ext Hin).
      rewrite Hp. rewrite <- append_assoc. reflexivity.
    + exact (Hnot r ext Hin Heq).
Qed.

(** C8: a filename made of exactly [lib] and a recognised extension
    resolves to the empty name, not to [None]: the prefix is stripped
    before the extension is looked for. *)
Theorem calc_cdylib_name_lib_only (path ext : string) :
  file_name path = Some ("lib" ++ ext)%string ->
  In ext cdylib_extentions ->
  calc_cdylib_name path = Some "".
Proof.
  intros Hf Hin. unfold calc_cdylib_name. rewrite Hf.
  rewrite strip_prefix_app.
  apply (strip_first_suffix_ext "" ext Hin).
Qed.

(** Every path [dir/f] whose last segment [f] is a normal one has the
    file name [f], whatever [dir] is. *)
Lemma path_segments_no_slash (f : string) : no_slash f = true -> path_segments f = [f].
Proof.
  induction f as [|c f IH]; simpl; [reflexivity|].
  intros H. apply andb_prop in H as [Hc Hf].
  destruct (Ascii.eqb c "/"); [discriminate|]. rewrite (IH Hf). reflexivity.
Qed.

Lemma path_segments_app_slash (dir y : string) :
  exists seg pre, path_segments (dir ++ String "/" y) = (seg :: pre) ++ path_segments y.
Proof.
  induction dir as [|c dir IH]; simpl.
  - exists EmptyString, []. reflexivity.
  - destruct IH as [seg [pre ->]].
    destruct (Ascii.eqb c "/").
    + exists EmptyString, (seg :: pre). reflexivity.
    + exists (String c seg), pre. reflexivity.
Qed.

Lemma file_name_app (dir f : string) :
  no_slash f = true -> f <> "" -> f <> "." -> f <> ".." ->
  file_name (dir ++ String "/" f) = Some f.
Proof.
  intros Hs H0 H1 H2. unfold file_name.
  destruct (path_segments_app_slash dir f) as [seg [pre ->]].
  rewrite (path_segments_no_slash f Hs), filter_app, rev_app_distr. simpl.
  unfold normal_segment.
  destruct (String.eqb f "") eqn:E0; [apply String.eqb_eq in E0; contradiction|].
  destruct (String.eqb f ".") eqn:E1; [apply String.eqb_eq in E1; contradiction|].
  simpl. destruct (String.eqb f "..") eqn:E2; [apply String.eqb_eq in E2; contradiction|].
  reflexivity.
Qed.

Lemma no_slash_app (a b : string) : no_slash (a ++ b) = no_slash a && no_slash b.
Proof. induction a as [|c a IH]; simpl; [reflexivity|]. rewrite IH, andb_assoc. reflexivity. Qed.

(** Round trip of the Linux and macOS naming convention: the library
    [lib<name>.<ext>] in any directory resolves to [<name>], for every
    [<name>] without a separator, also one that itself starts with [lib]
    (the [liblibuniffi.so] case of the source's comment). *)
Theorem calc_cdylib_name_lib_roundtrip (dir name ext : string) :
  no_slash name = true -> In ext cdylib_extentions ->
  calc_cdylib_name (dir ++ "/lib" ++ name ++ ext) = Some name.
Proof.
  intros Hn Hin. unfold calc_cdylib_name.
  assert (Hext : no_slash ext = true).
  { unfold cdylib_extentions in Hin. simpl in Hin.
    destruct Hin as [<-|[<-|[<-|[]]]]; reflexivity. }
  change ("/lib" ++ name ++ ext)%string with (String "/" ("lib" ++ name ++ ext)).
  rewrite file_name_app; [| |discriminate|discriminate|discriminate].
  - rewrite strip_prefix_app. apply strip_first_suffix_ext, Hin.
  - simpl. rewrite no_slash_app, Hn, Hext. reflexivity.
Qed.

(** Every inferred name comes from the file name: it is the file name
    with a recognised extension removed, and with a [lib] prefix removed
    when the file name had one. *)
Theorem calc_cdylib_name_sound (path r : string) :
  calc_cdylib_name path = Some r ->
  exists filename ext,
    file_name path = Some filename /\ In ext cdylib_extentions /\
    (filename = (r ++ ext)%string \/ filename = ("lib" ++ r ++ ext)%string).
Proof.
  unfold calc_cdylib_name. destruct (file_name path) as [filename|]; [|discriminate].
  intros Hs. apply strip_first_suffix_some in Hs as [ext [Hin Heq]].
  exists filename, ext. split; [reflexivity|]. split; [exact Hin|].
  destruct (strip_prefix "lib" filename) as [f|] eqn:Hp.
  - apply strip_prefix_some in Hp. subst f. right. rewrite Hp. reflexivity.
  - left. exact Heq.
Qed.

End NameResolver.

(** * Grouping: order and keys of the metadata groups *)

Module Grouping.


Lemma filter_comm {A} (a b : A -> bool) (l : list A) :
  filter a (filter b l) = filter b (filter a l).
Proof.
  induction l as [|x l IH]; simpl; [reflexivity|].
  destruct (a x) eqn:Ea, (b x) eqn:Eb; simpl; rewrite ?Ea, ?Eb, IH; reflexivity.
Qed.

Lemma filter_and {A} (a b : A -> bool) (l : list A) :
  filter a (filter b l) = filter (fun x => b x && a x) l.
Proof.
  induction l as [|x l IH]; simpl; [reflexivity|].
  destruct (b x); simpl; [destruct (a x)|]; rewrite ?IH; reflexivity.
Qed.

Lemma filter_drop_rejected (p : string -> bool) (x : string) (l : list string) :
  p x = false ->
  filter p (filter (fun y => negb (String.eqb x y)) l) = filter p l.
Proof.
  intros Hx. induction l as [|y l IH]; simpl; [reflexivity|].
  destruct (String.eqb x y) eqn:E; simpl.
  - apply String.eqb_eq in E. subst y. rewrite Hx. exact IH.
  - destruct (p y); [f_equal|]; exact IH.
Qed.

Lemma first_seen_filter (p : string -> bool) (l : list string) :
  first_seen (filter p l) = filter p (first_seen l).
Proof.
  induction l as [|x l IH]; simpl; [reflexivity|].
  destruct (p x) eqn:Hp; simpl.
  - rewrite IH, filter_comm. reflexivity.
  - rewrite IH, filter_drop_rejected by exact Hp. reflexivity.
Qed.

Lemma first_seen_In (l : list string) (x : string) : In x (first_seen l) <-> In x l.
Proof.
  induction l as [|y l IH]; simpl; [tauto|].
  rewrite filter_In, IH. split.
  - intros [H|[H _]]; auto.
  - intros [H|H]; [auto|].
    destruct (String.eqb y x) eqn:E; [apply String.eqb_eq in E; auto|].
    right. split; [exact H|reflexivity].
Qed.

Lemma first_seen_NoDup (l : list string) : NoDup (first_seen l).
Proof.
  induction l as [|x l IH]; simpl; constructor.
  - rewrite filter_In. intros [_ H]. rewrite String.eqb_refl in H. discriminate.
  - apply NoDup_filter, IH.
Qed.

Lemma keys_add_namespace_group (m : MetadataGroupMap) (ns : NamespaceMetadata) :
  map fst (add_namespace_group m ns) =
  if key_absent (map fst m) (crate_name_of ns) then map fst m ++ [crate_name_of ns] else map fst m.
Proof.
  unfold key_absent. induction m as [|[k g] m IH]; simpl; [reflexivity|].
  destruct (String.eqb k (crate_name_of ns)) eqn:E; simpl; [reflexivity|].
  rewrite IH. destruct (existsb _ (map fst m)); reflexivity.
Qed.

Lemma keys_create_fold (items : list Metadata) (m : MetadataGroupMap) :
  map fst (fold_left (fun m item =>
               match item with
               | MNamespace ns => add_namespace_group m ns
               | MItem _ _ => m
               end) items m) =
  map fst m ++ first_seen (filter (key_absent (map fst m)) (namespace_names items)).
Proof.
  revert m. induction items as [|[ns|c d] items IH]; intros m; simpl.
  - rewrite app_nil_r. reflexivity.
  - rewrite IH, keys_add_namespace_group.
    destruct (key_absent (map fst m) (crate_name_of ns)) eqn:Ea.
    + rewrite <- app_assoc. simpl. f_equal. f_equal.
      rewrite !first_seen_filter, filter_and.
      apply filter_ext. intros y. unfold key_absent.
      rewrite existsb_app. simpl. rewrite orb_false_r, negb_orb. reflexivity.
    + reflexivity.
  - apply IH.
Qed.

Lemma keys_create_metadata_groups (items : list Metadata) :
  map fst (create_metadata_groups items) = first_seen (namespace_names items).
Proof.
  unfold create_metadata_groups. rewrite keys_create_fold. simpl.
  unfold key_absent. simpl. rewrite List.filter_true. reflexivity.
Qed.


Lemma add_namespace_group_keyed (m : MetadataGroupMap) (ns : NamespaceMetadata) :
  keyed_by_crate m -> keyed_by_crate (add_namespace_group m ns).
Proof.
  unfold keyed_by_crate. induction m as [|[k g] m IH]; intros H; simpl.
  - constructor; [reflexivity|constructor].
  - inversion H as [|? ? Hkg Hm]; subst.
    destruct (String.eqb k (crate_name_of ns)); [exact H|].
    constructor; [exact Hkg|apply IH, Hm].
Qed.

Lemma create_metadata_groups_keyed (items : list Metadata) :
  keyed_by_crate (create_metadata_groups items).
Proof.
  unfold create_metadata_groups.
  assert (H : forall m, keyed_by_crate m ->
    keyed_by_crate (fold_left (fun m item =>
               match item with
               | MNamespace ns => add_namespace_group m ns
               | MItem _ _ => m
               end) items m)).
  { induction items as [|[ns|c d] items IH]; intros m Hm; simpl; [exact Hm| |].
    - apply IH, add_namespace_group_keyed, Hm.
    - apply IH, Hm. }
  apply H. constructor.
Qed.

Lemma map_lookup_In (k : string) (m : MetadataGroupMap) (g : MetadataGroup) :
  map_lookup k m = Some g -> In (k, g) m.
Proof.
  induction m as [|[k' g'] m IH]; simpl; [discriminate|].
  destruct (String.eqb k k') eqn:E.
  - apply String.eqb_eq in E. intros H. injection H as <-. subst. auto.
  - intros H. right. apply IH, H.
Qed.

Lemma keys_map_update (k : string) (g : MetadataGroup) (m : MetadataGroupMap) :
  map fst (map_update k g m) = map fst m.
Proof.
  induction m as [|[k' g'] m IH]; simpl; [reflexivity|].
  destruct (String.eqb k k'); simpl; congruence.
Qed.

Lemma map_update_keyed (k : string) (g : MetadataGroup) (m : MetadataGroupMap) :
  crate_name_of (namespace g) = k -> keyed_by_crate m -> keyed_by_crate (map_update k g m).
Proof.
  unfold keyed_by_crate. intros Hg. induction m as [|[k' g'] m IH]; intros H; simpl; [constructor|].
  inversion H as [|? ? Hkg Hm]; subst.
  destruct (String.eqb (crate_name_of (namespace g)) k') eqn:E.
  - apply String.eqb_eq in E. constructor; [simpl; congruence|exact Hm].
  - constructor; [exact Hkg|apply IH, Hm].
Qed.

Lemma group_metadata_keys (m m' : MetadataGroupMap) (items : list Metadata) :
  group_metadata m items = Ok m' ->
  map fst m' = map fst m /\ (keyed_by_crate m -> keyed_by_crate m').
Proof.
  revert m. induction items as [|[ns|c d] items IH]; intros m H; simpl in H.
  - injection H as <-. auto.
  - destruct (map_lookup (crate_name_of ns) m) as [g|]; [|discriminate].
    destruct (namespace_eqb (namespace g) ns); [|discriminate].
    apply IH, H.
  - destruct (map_lookup c m) as [g|] eqn:Hl; [|discriminate].
    destruct (IH _ H) as [Hk Hw]. rewrite keys_map_update in Hk.
    split; [exact Hk|].
    intros Hm. apply Hw, map_update_keyed; [|exact Hm].
    simpl. apply map_lookup_In in Hl.
    unfold keyed_by_crate in Hm. rewrite Forall_forall in Hm.
    symmetry. exact (Hm _ Hl).
Qed.

(** No item is dropped: every item's crate has a group. *)
Lemma group_metadata_attributes (m m' : MetadataGroupMap) (items : list Metadata) :
  group_metadata m items = Ok m' ->
  forall item, In item items -> In (metadata_crate_name item) (map fst m).
Proof.
  revert m. induction items as [|[ns|c d] items IH]; intros m H item Hin; simpl in H;
    [destruct Hin| |].
  - destruct (map_lookup (crate_name_of ns) m) as [g|] eqn:Hl; [|discriminate].
    destruct (namespace_eqb (namespace g) ns); [|discriminate].
    destruct Hin as [<-|Hin]; [|exact (IH _ H item Hin)].
    apply map_lookup_In in Hl. apply (in_map fst) in Hl. exact Hl.
  - destruct (map_lookup c m) as [g|] eqn:Hl; [|discriminate].
    destruct Hin as [<-|Hin].
    + apply map_lookup_In in Hl. apply (in_map fst) in Hl. exact Hl.
    + rewrite <- (keys_map_update c {| namespace := namespace g;
                     group_items := group_items g ++ [MItem c d] |} m).
      exact (IH _ H item Hin).
Qed.

(** After a successful grouping, the groups' crate names are the declared
    namespaces in first-seen order. *)
Lemma grouped_crate_names (items : list Metadata) (m : MetadataGroupMap) :
  group_metadata (create_metadata_groups items) items = Ok m ->
  map (fun g => crate_name_of (namespace g)) (into_values m) = first_seen (namespace_names items).
Proof.
  intros H. destruct (group_metadata_keys _ _ _ H) as [Hk Hw].
  specialize (Hw (create_metadata_groups_keyed items)).
  rewrite <- keys_create_metadata_groups, <- Hk.
  unfold into_values. rewrite map_map.
  unfold keyed_by_crate in Hw. clear H Hk.
  induction Hw as [|[k g] m Hkg Hm IH]; simpl; [reflexivity|].
  simpl in Hkg. congruence.
Qed.

Lemma namespace_names_In (items : list Metadata) (c : string) :
  In c (namespace_names items) -> In c (map metadata_crate_name items).
Proof.
  induction items as [|[ns|c' d] items IH]; simpl; [tauto| |]; intuition.
Qed.

End Grouping.

(** * The orchestrator *)

Section Orchestrator.

Context {Error ComponentInterface Config : Type}.
Variable bc : @BindingsConfig ComponentInterface Config.
Variable env : @Env Error ComponentInterface Config.


(** ** The writer/error monad *)

Lemma bind_inv {A B} (m : @M Error ComponentInterface Config A) (f : A -> M B) r lg :
  bind m f = (r, lg) ->
  (exists e, m = (Err e, lg) /\ r = Err e) \/
  (exists a lg1 lg2, m = (Ok a, lg1) /\ f a = (r, lg2) /\ lg = lg1 ++ lg2).
Proof.
  unfold bind. destruct m as [[a|e] lg1].
  - destruct (f a) as [r' lg2] eqn:Ef. intros H. injection H as <- <-.
    right. exists a, lg1, lg2. auto.
  - intros H. injection H as <- <-. left. exists e. auto.
Qed.

Lemma collect_map_log {A B} (f : A -> @M Error ComponentInterface Config B) l ev :
  In ev (snd (collect_map f l)) -> exists x, In x l /\ In ev (snd (f x)).
Proof.
  induction l as [|x l IH]; simpl; [intros []|].
  destruct (collect_map f l) as [r' lg'] eqn:Ec.
  unfold bind. destruct (f x) as [[y|e] lg1] eqn:Ef; simpl.
  - destruct r' as [ys|e]; simpl; rewrite ?app_nil_r;
      intros [H|H]%in_app_or;
      [exists x; rewrite Ef; auto
      |destruct (IH H) as [x' [Hx' Hev]]; exists x'; auto
      |exists x; rewrite Ef; auto
      |destruct (IH H) as [x' [Hx' Hev]]; exists x'; auto].
  - intros H. exists x. rewrite Ef. auto.
Qed.

Lemma collect_map_ok {A B} (f : A -> @M Error ComponentInterface Config B) l ys lg :
  collect_map f l = (Ok ys, lg) ->
  Forall2 (fun x y => fst (f x) = Ok y) l ys /\ lg = flat_map (fun x => snd (f x)) l.
Proof.
  revert ys lg. induction l as [|x l IH]; simpl; intros ys lg H.
  - injection H as <- <-. auto.
  - apply bind_inv in H as [[e [_ He]]|[y [lg1 [lg2 [Hx [H ->]]]]]]; [discriminate|].
    apply bind_inv in H as [[e [_ He]]|[ys' [lg3 [lg4 [Hl [H ->]]]]]]; [discriminate|].
    injection H as <- <-.
    destruct (IH _ _ Hl) as [HF ->]. split.
    + constructor; [rewrite Hx; reflexivity|exact HF].
    + rewrite Hx. simpl. rewrite app_nil_r. reflexivity.
Qed.


Lemma for_each_log {A} (f : A -> @M Error ComponentInterface Config unit) l ev :
  In ev (snd (for_each f l)) -> exists x, In x l /\ In ev (snd (f x)).
Proof.
  induction l as [|x l IH]; simpl; [intros []|].
  unfold bind. destruct (f x) as [[u|e] lg1] eqn:Ef; simpl.
  - destruct (for_each f l) as [r' lg'] eqn:Ec. simpl.
    intros [H|H]%in_app_or.
    + exists x. rewrite Ef. auto.
    + destruct (IH H) as [x' [Hx' Hev]]. exists x'. auto.
  - intros H. exists x. rewrite Ef. auto.
Qed.

Lemma for_each_ok {A} (f : A -> @M Error ComponentInterface Config unit) l lg :
  for_each f l = (Ok tt, lg) -> lg = flat_map (fun x => snd (f x)) l.
Proof.
  revert lg. induction l as [|x l IH]; simpl; intros lg H.
  - injection H as <-. reflexivity.
  - apply bind_inv in H as [[e [_ He]]|[u [lg1 [lg2 [Hx [H ->]]]]]]; [discriminate|].
    rewrite Hx, (IH _ H). reflexivity.
Qed.

(** ** Calls made by [find_sources] *)

Lemma source_of_group_log cr cdylib_name g ev :
  In ev (snd (source_of_group bc env cr cdylib_name g)) ->
  ev = EAddMetadata g \/ ev = ELoadInitialConfig cr None.
Proof.
  unfold source_of_group, bind, call, ret.
  destruct (add_metadata env _ g) as [ci0|e]; simpl.
  - destruct (load_initial_config env cr None) as [cfg|e]; simpl; intuition.
  - intuition.
Qed.

Lemma find_sources_log cr lp cdylib_name ev :
  In ev (snd (find_sources bc env cr lp cdylib_name)) ->
  ev = EExtractFromLibrary lp \/ (exists g, ev = EAddMetadata g) \/ ev = ELoadInitialConfig cr None.
Proof.
  unfold find_sources, bind at 1, call.
  destruct (extract_from_library env lp) as [items|e]; simpl; [|intuition].
  destruct (group_metadata (create_metadata_groups items) items) as [m|ge]; simpl.
  - destruct (collect_map _ _) as [r lg] eqn:Ec. simpl.
    intros [H|H]; [auto|].
    assert (H' : In ev (snd (collect_map (source_of_group bc env cr cdylib_name) (into_values m))))
      by (rewrite Ec; exact H).
    apply collect_map_log in H' as [g [_ Hg]].
    apply source_of_group_log in Hg as [->| ->]; eauto.
  - intros [H|[]]. auto.
Qed.

(** The run of [generate_external_bindings], step by step. *)
Lemma generate_external_bindings_eq (gen : @BindingGenerator Error ComponentInterface Config)
    (library_path crate_root out_dir : string) :
  generate_external_bindings bc env gen library_path crate_root out_dir =
  let cdylib_name := calc_cdylib_name library_path in
  let check := ECheckLibraryPath library_path cdylib_name in
  match check_library_path gen library_path cdylib_name with
  | Err e => (Err e, [check])
  | Ok _ =>
      let (r1, lg1) := find_sources bc env crate_root library_path cdylib_name in
      match r1 with
      | Err e => (Err e, check :: lg1)
      | Ok sources =>
          match create_dir_all env out_dir with
          | Err e => (Err e, check :: lg1 ++ [ECreateDirAll out_dir])
          | Ok _ =>
              let (r3, lg3) :=
                for_each (fun source =>
                   call (EWriteBindings (ci source) (config source) out_dir)
                        (write_bindings gen (ci source) (config source) out_dir None)) sources in
              (match r3 with Ok _ => Ok sources | Err e => Err e end,
               check :: lg1 ++ ECreateDirAll out_dir :: lg3)
          end
      end
  end.
Proof.
  unfold generate_external_bindings. cbv [bind call ret].
  destruct (check_library_path gen _ _) as [u|e]; [|reflexivity].
  destruct (find_sources bc env crate_root library_path _) as [[srcs|e] lg1]; [|reflexivity].
  destruct (create_dir_all env out_dir) as [u'|e]; [|reflexivity].
  destruct (for_each _ srcs) as [[u''|e] lg3]; simpl; rewrite ?app_nil_r; reflexivity.
Qed.

Lemma write_loop_log (gen : @BindingGenerator Error ComponentInterface Config) out_dir sources ev :
  In ev (snd (for_each (fun source =>
                   call (EWriteBindings (ci source) (config source) out_dir)
                        (write_bindings gen (ci source) (config source) out_dir None)) sources)) ->
  exists source, In source sources /\ ev = EWriteBindings (ci source) (config source) out_dir.
Proof.
  intros H. apply for_each_log in H as [x [Hx [<-|[]]]]. eauto.
Qed.

(** ** Successful runs *)

Lemma source_of_group_fst cr cdylib_name g :
  fst (source_of_group bc env cr cdylib_name g) =
  match add_metadata env (ComponentInterface_new env (crate_name_of (namespace g))) g with
  | Err e => Err e
  | Ok ci0 =>
      match load_initial_config env cr None with
      | Err e => Err e
      | Ok cfg0 =>
          Ok {| crate_name := crate_name_of (namespace g); ci := ci0;
                config := update_from_ci bc
                            (match cdylib_name with
                             | Some n => update_from_cdylib_name bc cfg0 n
                             | None => cfg0
                             end) ci0 |}
      end
  end.
Proof.
  unfold source_of_group. cbv [bind call ret].
  destruct (add_metadata env _ g) as [ci0|e]; [|reflexivity].
  destruct (load_initial_config env cr None) as [cfg0|e]; reflexivity.
Qed.

Lemma source_of_group_ok_log cr cdylib_name g s :
  fst (source_of_group bc env cr cdylib_name g) = Ok s ->
  snd (source_of_group bc env cr cdylib_name g) = [EAddMetadata g; ELoadInitialConfig cr None].
Proof.
  unfold source_of_group. cbv [bind call ret].
  destruct (add_metadata env _ g) as [ci0|e]; simpl; [|discriminate].
  destruct (load_initial_config env cr None) as [cfg0|e]; simpl; [reflexivity|discriminate].
Qed.

Lemma sources_of_groups cr cdylib_name groups srcs :
  Forall2 (fun g s => fst (source_of_group bc env cr cdylib_name g) = Ok s) groups srcs ->
  map crate_name srcs = map (fun g => crate_name_of (namespace g)) groups /\
  flat_map (fun g => snd (source_of_group bc env cr cdylib_name g)) groups =
  flat_map (fun g => [EAddMetadata g; ELoadInitialConfig cr None]) groups /\
  (forall s, In s srcs -> exists cfg0,
      load_initial_config env cr None = Ok cfg0 /\
      config s = update_from_ci bc (match cdylib_name with
                                    | Some n => update_from_cdylib_name bc cfg0 n
                                    | None => cfg0
                                    end) (ci s)).
Proof.
  induction 1 as [|g s groups srcs Hs HF [IH1 [IH2 IH3]]]; simpl; [repeat split; intros ? []|].
  assert (Hlog := source_of_group_ok_log _ _ _ _ Hs).
  rewrite source_of_group_fst in Hs.
  destruct (add_metadata env _ g) as [ci0|e]; [|discriminate].
  destruct (load_initial_config env cr None) as [cfg0|e] eqn:Hl; [|discriminate].
  injection Hs as <-. simpl. repeat split.
  - f_equal. exact IH1.
  - rewrite Hlog, IH2. reflexivity.
  - intros s' [<-|Hin]; [exists cfg0; auto|exact (IH3 s' Hin)].
Qed.

Lemma find_sources_ok cr lp cdylib_name srcs lg :
  find_sources bc env cr lp cdylib_name = (Ok srcs, lg) ->
  exists items m,
    extract_from_library env lp = Ok items /\
    group_metadata (create_metadata_groups items) items = Ok m /\
    Forall2 (fun g s => fst (source_of_group bc env cr cdylib_name g) = Ok s) (into_values m) srcs /\
    lg = EExtractFromLibrary lp :: flat_map (fun g => snd (source_of_group bc env cr cdylib_name g))
                                            (into_values m).
Proof.
  unfold find_sources. cbv [bind call ret].
  destruct (extract_from_library env lp) as [items|e] eqn:He; [|discriminate].
  destruct (group_metadata (create_metadata_groups items) items) as [m|ge] eqn:Hg; [|discriminate].
  destruct (collect_map _ (into_values m)) as [r lg'] eqn:Ec.
  intros H. injection H as -> <-.
  apply collect_map_ok in Ec as [HF ->].
  exists items, m. auto.
Qed.

Lemma map_singleton {A B} (f : A -> B) (l : list A) : flat_map (fun x => [f x]) l = map f l.
Proof. induction l; simpl; congruence. Qed.

Lemma generate_ok gen lp cr od srcs lg :
  generate_external_bindings bc env gen lp cr od = (Ok srcs, lg) ->
  exists lg1,
    find_sources bc env cr lp (calc_cdylib_name lp) = (Ok srcs, lg1) /\
    lg = ECheckLibraryPath lp (calc_cdylib_name lp) :: lg1 ++
         ECreateDirAll od :: map (fun s => EWriteBindings (ci s) (config s) od) srcs.
Proof.
  rewrite generate_external_bindings_eq. cbv zeta.
  destruct (check_library_path gen _ _) as [u|e]; [|discriminate].
  destruct (find_sources bc env cr lp _) as [[srcs'|e] lg1]; [|discriminate].
  destruct (create_dir_all env od) as [u'|e]; [|discriminate].
  destruct (for_each _ srcs') as [[u''|e] lg3] eqn:Ew; [|discriminate].
  intros H. injection H as -> <-. exists lg1. split; [reflexivity|].
  destruct u''. apply for_each_ok in Ew. rewrite Ew.
  unfold call. simpl. rewrite map_singleton. reflexivity.
Qed.

(** Every call a run makes. *)
Lemma generate_log gen lp cr od ev :
  In ev (snd (generate_external_bindings bc env gen lp cr od)) ->
  ev = ECheckLibraryPath lp (calc_cdylib_name lp) \/
  In ev (snd (find_sources bc env cr lp (calc_cdylib_name lp))) \/
  ev = ECreateDirAll od \/
  (exists s, ev = EWriteBindings (ci s) (config s) od).
Proof.
  rewrite generate_external_bindings_eq. cbv zeta.
  destruct (check_library_path gen _ _) as [u|e]; [|intros [<-|[]]; auto].
  destruct (find_sources bc env cr lp _) as [[srcs|e] lg1]; simpl;
    [|intros [<-|H]; auto].
  destruct (create_dir_all env od) as [u'|e].
  - destruct (for_each _ srcs) as [r3 lg3] eqn:Ew. simpl.
    intros [<-|[H|[<-|H]]%in_app_or]; auto.
    assert (H' : In ev (snd (for_each (fun source =>
                call (EWriteBindings (ci source) (config source) od)
                  (write_bindings gen (ci source) (config source) od None)) srcs)))
      by (rewrite Ew; exact H).
    apply write_loop_log in H' as [x [_ ->]]. eauto.
  - simpl. intros [<-|[H|[<-|[]]]%in_app_or]; auto.
Qed.

(** C6: when extracting the metadata from the library fails, the run
    returns that error, having only checked the library path and tried the
    extraction: the output directory is not created, no bindings are
    written and no [Source] is returned. *)
Theorem extract_failure_leaves_fs (gen : @BindingGenerator Error ComponentInterface Config)
    (library_path crate_root out_dir : string) (e : Error) :
  check_library_path gen library_path (calc_cdylib_name library_path) = Ok tt ->
  extract_from_library env library_path = Err e ->
  generate_external_bindings bc env gen library_path crate_root out_dir
  = (Err e, [ECheckLibraryPath library_path (calc_cdylib_name library_path);
             EExtractFromLibrary library_path]) /\
  forall ev, In ev (snd (generate_external_bindings bc env gen library_path crate_root out_dir)) ->
             fs_effect ev = false.
Proof.
  intros Hc He.
  assert (Hrun : generate_external_bindings bc env gen library_path crate_root out_dir
    = (Err e, [ECheckLibraryPath library_path (calc_cdylib_name library_path);
               EExtractFromLibrary library_path])).
  { unfold generate_external_bindings, find_sources, bind, call.
    rewrite Hc, He. reflexivity. }
  split; [exact Hrun|].
  rewrite Hrun. simpl. intros ev [<-|[<-|[]]]; reflexivity.
Qed.

(** C7: every run starts with the generator's [check_library_path] on
    the library path and its inferred name, and makes that call only once;
    when it fails, the run ends there with its error, before any metadata
    extraction or file-system effect. *)
Theorem check_library_path_first (gen : @BindingGenerator Error ComponentInterface Config)
    (library_path crate_root out_dir : string) :
  (exists rest,
      snd (generate_external_bindings bc env gen library_path crate_root out_dir)
      = ECheckLibraryPath library_path (calc_cdylib_name library_path) :: rest /\
      forall p n, ~ In (ECheckLibraryPath p n) rest) /\
  (forall e, check_library_path gen library_path (calc_cdylib_name library_path) = Err e ->
   generate_external_bindings bc env gen library_path crate_root out_dir
   = (Err e, [ECheckLibraryPath library_path (calc_cdylib_name library_path)])).
Proof.
  rewrite generate_external_bindings_eq. cbv zeta.
  split.
  - destruct (check_library_path gen _ _) as [u|e].
    2: { exists []. split; [reflexivity|]. intros p n []. }
    destruct (find_sources bc env crate_root library_path _) as [r1 lg1] eqn:Ef.
    assert (Hlog : forall p n, ~ In (ECheckLibraryPath p n) lg1).
    { intros p n Hin.
      assert (Hin' : In (ECheckLibraryPath p n)
                (snd (find_sources bc env crate_root library_path (calc_cdylib_name library_path))))
        by (rewrite Ef; exact Hin).
      apply find_sources_log in Hin' as [H'|[[g H']|H']]; discriminate. }
    destruct r1 as [srcs|e]; [|exists lg1; auto].
    destruct (create_dir_all env out_dir) as [u'|e].
    + destruct (for_each _ srcs) as [r3 lg3] eqn:Ew.
      exists (lg1 ++ ECreateDirAll out_dir :: lg3). split; [reflexivity|].
      intros p n [Hin|[Hin|Hin]]%in_app_or; [exact (Hlog p n Hin)|discriminate|].
      assert (Hin' : In (ECheckLibraryPath p n) (snd (for_each (fun source =>
                call (EWriteBindings (ci source) (config source) out_dir)
                  (write_bindings gen (ci source) (config source) out_dir None)) srcs)))
        by (rewrite Ew; exact Hin).
      apply write_loop_log in Hin' as [x [_ Hx]]. discriminate.
    + exists (lg1 ++ [ECreateDirAll out_dir]). split; [reflexivity|].
      intros p n [Hin|[Hin|[]]]%in_app_or; [exact (Hlog p n Hin)|discriminate].
  - intros e He. rewrite He. reflexivity.
Qed.

(** C4: when the extracted metadata names exactly the distinct crates
    [ns], a successful run returns one source per crate of [ns]: as many
    sources as [ns] has elements, with pairwise distinct crate names that
    are exactly those of [ns]. *)
Theorem one_source_per_namespace (gen : @BindingGenerator Error ComponentInterface Config)
    (library_path crate_root out_dir : string) (sources : list Source) lg
    (items : list Metadata) (ns : list string) :
  generate_external_bindings bc env gen library_path crate_root out_dir = (Ok sources, lg) ->
  extract_from_library env library_path = Ok items ->
  NoDup ns ->
  (forall c, In c ns <-> In c (map metadata_crate_name items)) ->
  length sources = length ns /\
  NoDup (map crate_name sources) /\
  (forall c, In c (map crate_name sources) <-> In c ns).
Proof.
  intros H He Hns Hset.
  apply generate_ok in H as [lg1 [Hf _]].
  apply find_sources_ok in Hf as [items' [m [He' [Hg [HF _]]]]].
  rewrite He in He'. injection He' as <-.
  destruct (sources_of_groups _ _ _ _ HF) as [Hn _].
  rewrite (Grouping.grouped_crate_names _ _ Hg) in Hn.
  assert (Hin : forall c, In c (map crate_name sources) <-> In c ns).
  { intros c. rewrite Hn, Grouping.first_seen_In, Hset. split.
    - apply Grouping.namespace_names_In.
    - intros Hc. apply in_map_iff in Hc as [item [<- Hitem]].
      assert (Hk := Grouping.group_metadata_attributes _ _ _ Hg item Hitem).
      rewrite Grouping.keys_create_metadata_groups, Grouping.first_seen_In in Hk.
      exact Hk. }
  assert (Hnd : NoDup (map crate_name sources)) by (rewrite Hn; apply Grouping.first_seen_NoDup).
  repeat split; [|exact Hnd|apply Hin|apply Hin].
  rewrite <- (length_map crate_name sources).
  apply Permutation_length, NoDup_Permutation; assumption.
Qed.


(** C9: every configuration load of a run is [load_initial_config] on
    [crate_root] with no explicit path, and every returned source's
    configuration is that one loaded configuration, updated with the
    inferred library name (when there is one) and then with the source's
    own interface. *)
Theorem config_loaded_from_crate_root (gen : @BindingGenerator Error ComponentInterface Config)
    (library_path crate_root out_dir : string) :
  (forall r o, In (ELoadInitialConfig r o)
                  (snd (generate_external_bindings bc env gen library_path crate_root out_dir)) ->
               r = crate_root /\ o = None) /\
  (forall sources, fst (generate_external_bindings bc env gen library_path crate_root out_dir) = Ok sources ->
   forall s, In s sources -> exists cfg0,
     load_initial_config env crate_root None = Ok cfg0 /\
     config s = update_from_ci bc (match calc_cdylib_name library_path with
                                   | Some n => update_from_cdylib_name bc cfg0 n
                                   | None => cfg0
                                   end) (ci s)).
Proof.
  split.
  - intros r o Hin. apply generate_log in Hin as [H|[H|[H|[s H]]]]; try discriminate.
    apply find_sources_log in H as [H|[[g H]|H]]; try discriminate.
    injection H as -> ->. auto.
  - intros sources Hok s Hs.
    destruct (generate_external_bindings bc env gen library_path crate_root out_dir) as [r lg] eqn:Hrun.
    simpl in Hok. subst r.
    apply generate_ok in Hrun as [lg1 [Hf _]].
    apply find_sources_ok in Hf as [items [m [_ [_ [HF _]]]]].
    destruct (sources_of_groups _ _ _ _ HF) as [_ [_ Hcfg]].
    exact (Hcfg s Hs).
Qed.

(** C10: when the metadata yields no group, a run that passes the
    library check creates the output directory (the only file-system
    call), writes no bindings, and returns [Ok []] unless creating the
    directory fails. *)
Theorem no_groups_run (gen : @BindingGenerator Error ComponentInterface Config)
    (library_path crate_root out_dir : string) (items : list Metadata) :
  check_library_path gen library_path (calc_cdylib_name library_path) = Ok tt ->
  extract_from_library env library_path = Ok items ->
  group_metadata (create_metadata_groups items) items = Ok [] ->
  generate_external_bindings bc env gen library_path crate_root out_dir =
  (match create_dir_all env out_dir with Ok _ => Ok [] | Err e => Err e end,
   [ECheckLibraryPath library_path (calc_cdylib_name library_path);
    EExtractFromLibrary library_path;
    ECreateDirAll out_dir]).
Proof.
  intros Hc He Hg.
  rewrite generate_external_bindings_eq. cbv zeta. rewrite Hc.
  assert (Hf : find_sources bc env crate_root library_path (calc_cdylib_name library_path)
               = (Ok [], [EExtractFromLibrary library_path])).
  { unfold find_sources. cbv [bind call ret]. rewrite He, Hg. reflexivity. }
  rewrite Hf. destruct (create_dir_all env out_dir); reflexivity.
Qed.

End Orchestrator.

(** * More of the orchestrator: failures after building, and the writes *)

Section OrchestratorWrites.

Context {Error ComponentInterface Config : Type}.
Variable bc : @BindingsConfig ComponentInterface Config.
Variable env : @Env Error ComponentInterface Config.

Lemma write_loop_first_err (gen : @BindingGenerator Error ComponentInterface Config)
    out_dir pre s post e :
  (forall x, In x pre -> write_bindings gen (ci x) (config x) out_dir None = Ok tt) ->
  write_bindings gen (ci s) (config s) out_dir None = Err e ->
  for_each (fun source =>
              call (EWriteBindings (ci source) (config source) out_dir)
                   (write_bindings gen (ci source) (config source) out_dir None)) (pre ++ s :: post)
  = (Err e, map (fun x => EWriteBindings (ci x) (config x) out_dir) (pre ++ [s])).
Proof.
  intros Hpre Hs. induction pre as [|x pre IH]; cbn [app for_each map].
  - cbv [bind call]. rewrite Hs. reflexivity.
  - rewrite IH by (intros y Hy; apply Hpre; right; exact Hy).
    cbv [bind call]. rewrite (Hpre x (or_introl eq_refl)). reflexivity.
Qed.

(** Writing is not all-or-nothing: when [write_bindings] fails for the
    source [s], after succeeding for the sources before it, the run returns
    that error with the bindings of the earlier sources already written and
    none attempted for the later ones. *)
Theorem write_failure_keeps_earlier_bindings (gen : @BindingGenerator Error ComponentInterface Config)
    (library_path crate_root out_dir : string) (lg1 : list Event)
    (pre post : list Source) (s : Source) (e : Error) :
  check_library_path gen library_path (calc_cdylib_name library_path) = Ok tt ->
  find_sources bc env crate_root library_path (calc_cdylib_name library_path)
    = (Ok (pre ++ s :: post), lg1) ->
  create_dir_all env out_dir = Ok tt ->
  (forall x, In x pre -> write_bindings gen (ci x) (config x) out_dir None = Ok tt) ->
  write_bindings gen (ci s) (config s) out_dir None = Err e ->
  generate_external_bindings bc env gen library_path crate_root out_dir =
  (Err e, ECheckLibraryPath library_path (calc_cdylib_name library_path)
          :: lg1 ++ ECreateDirAll out_dir
          :: map (fun x => EWriteBindings (ci x) (config x) out_dir) (pre ++ [s])).
Proof.
  intros Hc Hf Hd Hpre Hs.
  rewrite generate_external_bindings_eq. cbv zeta. rewrite Hc, Hf, Hd.
  rewrite (write_loop_first_err gen out_dir pre s post e Hpre Hs). reflexivity.
Qed.

(** When grouping the extracted metadata fails (an item of a crate
    without namespace, or a namespace declared twice differently), the run
    returns the converted grouping error right after the extraction: no
    component is built, no configuration loaded, nothing written. *)
Theorem grouping_failure_stops_run (gen : @BindingGenerator Error ComponentInterface Config)
    (library_path crate_root out_dir : string) (items : list Metadata) (ge : GroupError) :
  check_library_path gen library_path (calc_cdylib_name library_path) = Ok tt ->
  extract_from_library env library_path = Ok items ->
  group_metadata (create_metadata_groups items) items = Err ge ->
  generate_external_bindings bc env gen library_path crate_root out_dir =
  (Err (from_group_error env ge),
   [ECheckLibraryPath library_path (calc_cdylib_name library_path);
    EExtractFromLibrary library_path]).
Proof.
  intros Hc He Hg.
  rewrite generate_external_bindings_eq. cbv zeta. rewrite Hc.
  assert (Hf : find_sources bc env crate_root library_path (calc_cdylib_name library_path)
               = (Err (from_group_error env ge), [EExtractFromLibrary library_path])).
  { unfold find_sources. cbv [bind call ret]. rewrite He, Hg. reflexivity. }
  rewrite Hf. reflexivity.
Qed.

(** Every returned source's interface is [ComponentInterface::new] of the
    source's crate name, filled by [add_metadata] with the group of that
    crate, one of the groups of the extracted metadata. *)
Theorem source_ci_built_from_group (gen : @BindingGenerator Error ComponentInterface Config)
    (library_path crate_root out_dir : string) (sources : list Source) lg :
  generate_external_bindings bc env gen library_path crate_root out_dir = (Ok sources, lg) ->
  forall s, In s sources ->
  exists items m g,
    extract_from_library env library_path = Ok items /\
    group_metadata (create_metadata_groups items) items = Ok m /\
    In g (into_values m) /\
    crate_name_of (namespace g) = crate_name s /\
    add_metadata env (ComponentInterface_new env (crate_name s)) g = Ok (ci s).
Proof.
  intros H s Hs.
  apply generate_ok in H as [lg1 [Hf _]].
  apply find_sources_ok in Hf as [items [m [He [Hg [HF _]]]]].
  exists items, m.
  assert (Hg' : exists g, In g (into_values m) /\
                  fst (source_of_group bc env crate_root (calc_cdylib_name library_path) g) = Ok s).
  { clear He Hg. induction HF as [|g s' gs ss Hgs HF IH]; [destruct Hs|].
    destruct Hs as [<-|Hs]; [exists g; split; [left|]; auto|].
    destruct (IH Hs) as [g' [Hin Hok]]. exists g'. split; [right|]; auto. }
  destruct Hg' as [g [Hin Hok]]. exists g.
  rewrite source_of_group_fst in Hok.
  destruct (add_metadata env _ g) as [ci0|e0] eqn:Ha; [|discriminate].
  destruct (load_initial_config env crate_root None); [|discriminate].
  injection Hok as <-. simpl. auto.
Qed.

(** [write_bindings] is called only after every component was built and
    configured and the output directory was created: a run that writes any
    bindings got [Ok] from [find_sources] and from [create_dir_all], writes
    only into [out_dir], and writes only returned sources, after the
    directory creation in the call log. *)
Theorem writes_only_after_build_and_dir (gen : @BindingGenerator Error ComponentInterface Config)
    (library_path crate_root out_dir : string) c cfg d :
  In (EWriteBindings c cfg d) (snd (generate_external_bindings bc env gen library_path crate_root out_dir)) ->
  d = out_dir /\
  create_dir_all env out_dir = Ok tt /\
  exists sources lg1 rest,
    find_sources bc env crate_root library_path (calc_cdylib_name library_path) = (Ok sources, lg1) /\
    (exists s, In s sources /\ c = ci s /\ cfg = config s) /\
    snd (generate_external_bindings bc env gen library_path crate_root out_dir)
    = ECheckLibraryPath library_path (calc_cdylib_name library_path)
      :: lg1 ++ ECreateDirAll out_dir :: rest /\
    In (EWriteBindings c cfg d) rest.
Proof.
  rewrite generate_external_bindings_eq. cbv zeta.
  destruct (check_library_path gen _ _) as [u|e]; [|intros [H|[]]; discriminate].
  destruct (find_sources bc env crate_root library_path _) as [[srcs|e] lg1] eqn:Ef.
  2: { simpl. intros [H|H]; [discriminate|].
       assert (H' : In (EWriteBindings c cfg d)
                 (snd (find_sources bc env crate_root library_path (calc_cdylib_name library_path))))
         by (rewrite Ef; exact H).
       apply find_sources_log in H' as [H''|[[g H'']|H'']]; discriminate. }
  assert (Hlg1 : ~ In (EWriteBindings c cfg d) lg1).
  { intros H.
    assert (H' : In (EWriteBindings c cfg d)
              (snd (find_sources bc env crate_root library_path (calc_cdylib_name library_path))))
      by (rewrite Ef; exact H).
    apply find_sources_log in H' as [H''|[[g H'']|H'']]; discriminate. }
  destruct (create_dir_all env out_dir) as [[]|e] eqn:Hd.
  - destruct (for_each _ srcs) as [r3 lg3] eqn:Ew. simpl.
    intros [H|[H|[H|H]]%in_app_or]; [discriminate|contradiction|discriminate|].
    assert (H' : In (EWriteBindings c cfg d) (snd (for_each (fun source =>
                call (EWriteBindings (ci source) (config source) out_dir)
                  (write_bindings gen (ci source) (config source) out_dir None)) srcs)))
      by (rewrite Ew; exact H).
    apply write_loop_log in H' as [x [Hx Heq]]. injection Heq as -> -> ->.
    split; [reflexivity|]. split; [reflexivity|].
    exists srcs, lg1, lg3. split; [reflexivity|]. split; [exists x; auto|].
    split; [reflexivity|exact H].
  - simpl. intros [H|[H|[H|[]]]%in_app_or]; [discriminate|contradiction|discriminate].
Qed.

End OrchestratorWrites.

(** * Runs on concrete inputs *)

Example calc_cdylib_name_libuniffi_so : calc_cdylib_name "/path/to/libuniffi.so" = Some "uniffi".
Proof. reflexivity. Qed.
Example calc_cdylib_name_libuniffi_dylib : calc_cdylib_name "/path/to/libuniffi.dylib" = Some "uniffi".
Proof. reflexivity. Qed.
Example calc_cdylib_name_uniffi_dll : calc_cdylib_name "/path/to/uniffi.dll" = Some "uniffi".
Proof. reflexivity. Qed.
(** The ignored upstream test [calc_cdylib_name_is_correct_on_windows]:
    the [lib] of a Windows library name is stripped too. *)
Example calc_cdylib_name_libuniffi_dll : calc_cdylib_name "/path/to/libuniffi.dll" = Some "uniffi".
Proof. reflexivity. Qed.
Example calc_cdylib_name_trailing_slash : calc_cdylib_name "/path/to/libfoo.so/" = Some "foo".
Proof. reflexivity. Qed.
Example calc_cdylib_name_parent : calc_cdylib_name "/path/to/x.so/.." = None.
Proof. reflexivity. Qed.
Example calc_cdylib_name_root : calc_cdylib_name "/" = None.
Proof. reflexivity. Qed.
Example demo_run_crate_names : map crate_name demo_sources = ["core"; "net"].
Proof. vm_compute. reflexivity. Qed.

Lemma calc_cdylib_name_conventions_witness :
  calc_cdylib_name "/path/to/libuniffi.so" = Some "uniffi" /\
  calc_cdylib_name "/path/to/README.md" = None.
Proof.
  split.
  - apply (proj1 (NameResolver.calc_cdylib_name_conventions "/path/to/libuniffi.so")
             "libuniffi.so" "libuniffi" ".so").
    + reflexivity.
    + simpl. auto.
    + reflexivity.
  - apply (proj2 (NameResolver.calc_cdylib_name_conventions "/path/to/README.md")).
    right. exists "README.md". split; [reflexivity|].
    intros stem ext Hin Heq.
    apply (f_equal last_char) in Heq.
    destruct Hin as [<-|[<-|[<-|[]]]];
      rewrite NameResolver.last_char_app in Heq by discriminate; discriminate.
Defined.

Lemma calc_cdylib_name_lib_only_witness : calc_cdylib_name "/path/to/lib.so" = Some "".
Proof.
  apply (NameResolver.calc_cdylib_name_lib_only "/path/to/lib.so" ".so").
  - reflexivity.
  - simpl. auto.
Defined.

Lemma one_source_per_namespace_witness :
  length demo_sources = 2 /\ NoDup (map crate_name demo_sources) /\
  (forall c, In c (map crate_name demo_sources) <-> In c ["core"; "net"]).
Proof.
  assert (H : demo_run = (Ok demo_sources, demo_log)) by (vm_compute; reflexivity).
  apply (one_source_per_namespace demo_config (demo_env (Ok demo_items)) demo_generator
           "/target/debug/libcore.so" "/crate" "/out" demo_sources demo_log demo_items
           ["core"; "net"] H).
  - reflexivity.
  - constructor; [simpl; intros [H1|[]]; discriminate|constructor; [intros []|constructor]].
  - intros c. simpl. tauto.
Defined.


Lemma extract_failure_leaves_fs_witness :
  generate_external_bindings demo_config (demo_env (Err "io error")) demo_generator
    "/target/debug/libcore.so" "/crate" "/out"
  = (Err "io error", [ECheckLibraryPath "/target/debug/libcore.so" (Some "core");
                      EExtractFromLibrary "/target/debug/libcore.so"]).
Proof.
  apply (extract_failure_leaves_fs demo_config (demo_env (Err "io error")) demo_generator
           "/target/debug/libcore.so" "/crate" "/out" "io error"); reflexivity.
Defined.

Lemma check_library_path_first_witness :
  generate_external_bindings demo_config (demo_env (Ok demo_items)) demo_generator_unsupported
    "/target/debug/libcore.so" "/crate" "/out"
  = (Err "unsupported library", [ECheckLibraryPath "/target/debug/libcore.so" (Some "core")]).
Proof.
  apply (proj2 (check_library_path_first demo_config (demo_env (Ok demo_items))
                  demo_generator_unsupported "/target/debug/libcore.so" "/crate" "/out")).
  reflexivity.
Defined.

Lemma config_loaded_from_crate_root_witness :
  exists cfg0,
    load_initial_config (demo_env (Ok demo_items)) "/crate" None = Ok cfg0 /\
    config (nth 1 demo_sources {| crate_name := ""; ci := ""; config := "" |})
    = update_from_ci demo_config (update_from_cdylib_name demo_config cfg0 "core")
        (ci (nth 1 demo_sources {| crate_name := ""; ci := ""; config := "" |})).
Proof.
  apply (proj2 (config_loaded_from_crate_root demo_config (demo_env (Ok demo_items)) demo_generator
                  "/target/debug/libcore.so" "/crate" "/out") demo_sources).
  - vm_compute. reflexivity.
  - vm_compute. right. left. reflexivity.
Defined.

Lemma no_groups_run_witness :
  generate_external_bindings demo_config (demo_env (Ok [])) demo_generator
    "/target/debug/libcore.so" "/crate" "/out"
  = (Ok [], [ECheckLibraryPath "/target/debug/libcore.so" (Some "core");
             EExtractFromLibrary "/target/debug/libcore.so";
             ECreateDirAll "/out"]).
Proof.
  apply (no_groups_run demo_config (demo_env (Ok [])) demo_generator
           "/target/debug/libcore.so" "/crate" "/out" []); reflexivity.
Defined.

Lemma calc_cdylib_name_lib_roundtrip_witness :
  calc_cdylib_name ("/target/release" ++ "/lib" ++ "libuniffi" ++ ".dylib") = Some "libuniffi".
Proof.
  apply NameResolver.calc_cdylib_name_lib_roundtrip; [reflexivity|simpl; auto].
Defined.

Lemma calc_cdylib_name_sound_witness :
  exists filename ext,
    file_name "/path/to/libuniffi.so" = Some filename /\ In ext cdylib_extentions /\
    (filename = ("uniffi" ++ ext)%string \/ filename = ("lib" ++ "uniffi" ++ ext)%string).
Proof.
  apply (NameResolver.calc_cdylib_name_sound "/path/to/libuniffi.so" "uniffi"). reflexivity.
Defined.

Lemma write_failure_keeps_earlier_bindings_witness :
  generate_external_bindings demo_config (demo_env (Ok demo_items)) demo_generator_net_write_fails
    "/target/debug/libcore.so" "/crate" "/out" =
  (Err "net: disk full",
   ECheckLibraryPath "/target/debug/libcore.so" (calc_cdylib_name "/target/debug/libcore.so")
   :: snd (find_sources demo_config (demo_env (Ok demo_items)) "/crate" "/target/debug/libcore.so"
             (calc_cdylib_name "/target/debug/libcore.so"))
   ++ ECreateDirAll "/out"
   :: map (fun x => EWriteBindings (ci x) (config x) "/out")
          (firstn 1 demo_sources ++ [nth 1 demo_sources {| crate_name := ""; ci := ""; config := "" |}])).
Proof.
  apply (write_failure_keeps_earlier_bindings demo_config (demo_env (Ok demo_items))
           demo_generator_net_write_fails "/target/debug/libcore.so" "/crate" "/out"
           (snd (find_sources demo_config (demo_env (Ok demo_items)) "/crate" "/target/debug/libcore.so"
                   (calc_cdylib_name "/target/debug/libcore.so")))
           (firstn 1 demo_sources) []
           (nth 1 demo_sources {| crate_name := ""; ci := ""; config := "" |})
           "net: disk full").
  - reflexivity.
  - vm_compute. reflexivity.
  - reflexivity.
  - intros x Hx. vm_compute in Hx. destruct Hx as [<-|[]]. vm_compute. reflexivity.
  - vm_compute. reflexivity.
Defined.

Lemma grouping_failure_stops_run_witness :
  generate_external_bindings demo_config (demo_env (Ok demo_orphan_items)) demo_generator
    "/target/debug/libcore.so" "/crate" "/out" =
  (Err "group error",
   [ECheckLibraryPath "/target/debug/libcore.so" (calc_cdylib_name "/target/debug/libcore.so");
    EExtractFromLibrary "/target/debug/libcore.so"]).
Proof.
  apply (grouping_failure_stops_run demo_config (demo_env (Ok demo_orphan_items)) demo_generator
           "/target/debug/libcore.so" "/crate" "/out" demo_orphan_items (UnknownNamespace "util")).
  - reflexivity.
  - reflexivity.
  - vm_compute. reflexivity.
Defined.

Lemma source_ci_built_from_group_witness :
  exists items m g,
    extract_from_library (demo_env (Ok demo_items)) "/target/debug/libcore.so" = Ok items /\
    group_metadata (create_metadata_groups items) items = Ok m /\
    In g (into_values m) /\
    crate_name_of (namespace g) = crate_name (nth 0 demo_sources {| crate_name := ""; ci := ""; config := "" |}) /\
    add_metadata (demo_env (Ok demo_items))
      (ComponentInterface_new (demo_env (Ok demo_items))
         (crate_name (nth 0 demo_sources {| crate_name := ""; ci := ""; config := "" |}))) g
    = Ok (ci (nth 0 demo_sources {| crate_name := ""; ci := ""; config := "" |})).
Proof.
  assert (H : demo_run = (Ok demo_sources, demo_log)) by (vm_compute; reflexivity).
  apply (source_ci_built_from_group demo_config (demo_env (Ok demo_items)) demo_generator
           "/target/debug/libcore.so" "/crate" "/out" demo_sources demo_log H).
  vm_compute. left. reflexivity.
Defined.

Lemma writes_only_after_build_and_dir_witness :
  "/out" = "/out" /\
  create_dir_all (demo_env (Ok demo_items)) "/out" = Ok tt /\
  exists sources lg1 rest,
    find_sources demo_config (demo_env (Ok demo_items)) "/crate" "/target/debug/libcore.so"
      (calc_cdylib_name "/target/debug/libcore.so") = (Ok sources, lg1) /\
    (exists s, In s sources /\ "core/core,core" = ci s /\
               "base:/crate+cdylib:core+ci:core/core,core" = config s) /\
    demo_log = ECheckLibraryPath "/target/debug/libcore.so" (calc_cdylib_name "/target/debug/libcore.so")
               :: lg1 ++ ECreateDirAll "/out" :: rest /\
    In (EWriteBindings "core/core,core" "base:/crate+cdylib:core+ci:core/core,core" "/out") rest.
Proof.
  apply (writes_only_after_build_and_dir demo_config (demo_env (Ok demo_items)) demo_generator
           "/target/debug/libcore.so" "/crate" "/out").
  vm_compute. repeat (first [left; reflexivity | right]).
Defined.

(** * The order of the sources *)

Section OrchestratorOrder.

Context {Error ComponentInterface Config : Type}.
Variable bc : @BindingsConfig ComponentInterface Config.
Variable env : @Env Error ComponentInterface Config.

(** The first-seen model of the map is one of its iteration orders. *)
Lemma generate_external_bindings_first_seen (gen : @BindingGenerator Error ComponentInterface Config)
    (library_path crate_root out_dir : string) :
  generate_external_bindings bc env gen library_path crate_root out_dir =
  generate_external_bindings_iter bc env into_values gen library_path crate_root out_dir.
Proof. reflexivity. Qed.

Lemma find_sources_iter_ok iter cr lp cdylib_name srcs lg :
  find_sources_iter bc env iter cr lp cdylib_name = (Ok srcs, lg) ->
  exists items m,
    extract_from_library env lp = Ok items /\
    group_metadata (create_metadata_groups items) items = Ok m /\
    Forall2 (fun g s => fst (source_of_group bc env cr cdylib_name g) = Ok s) (iter m) srcs /\
    lg = EExtractFromLibrary lp :: flat_map (fun g => snd (source_of_group bc env cr cdylib_name g))
                                            (iter m).
Proof.
  unfold find_sources_iter. cbv [bind call ret].
  destruct (extract_from_library env lp) as [items|e] eqn:He; [|discriminate].
  destruct (group_metadata (create_metadata_groups items) items) as [m|ge] eqn:Hg; [|discriminate].
  destruct (collect_map _ (iter m)) as [r lg'] eqn:Ec.
  intros H. injection H as -> <-.
  apply collect_map_ok in Ec as [HF ->].
  exists items, m. auto.
Qed.

Lemma generate_iter_ok iter gen lp cr od srcs lg :
  generate_external_bindings_iter bc env iter gen lp cr od = (Ok srcs, lg) ->
  exists lg1,
    find_sources_iter bc env iter cr lp (calc_cdylib_name lp) = (Ok srcs, lg1) /\
    lg = ECheckLibraryPath lp (calc_cdylib_name lp) :: lg1 ++
         ECreateDirAll od :: map (fun s => EWriteBindings (ci s) (config s) od) srcs.
Proof.
  unfold generate_external_bindings_iter. cbv [bind call ret].
  destruct (check_library_path gen _ _) as [u|e]; [|discriminate].
  destruct (find_sources_iter bc env iter cr lp _) as [[srcs'|e] lg1]; [|discriminate].
  destruct (create_dir_all env od) as [u'|e]; [|discriminate].
  destruct (for_each _ srcs') as [[[]|e] lg3] eqn:Ew; [|discriminate].
  intros H. injection H as -> <-. exists lg1. split; [reflexivity|].
  apply for_each_ok in Ew. rewrite Ew, app_nil_r.
  unfold call. simpl. rewrite map_singleton. reflexivity.
Qed.

(** C3 (as amended): whatever the iteration order [iter] of the group
    map is, a successful run builds and configures the components in that
    order, returns the sources in that same order and writes them in that
    same order; the returned crate names are a permutation of the
    namespaces in first-seen order, but not necessarily in that order. *)
Theorem sources_follow_map_iteration (iter : MetadataGroupMap -> list MetadataGroup)
    (gen : @BindingGenerator Error ComponentInterface Config)
    (library_path crate_root out_dir : string) (sources : list Source) lg :
  (forall m, Permutation (iter m) (into_values m)) ->
  generate_external_bindings_iter bc env iter gen library_path crate_root out_dir = (Ok sources, lg) ->
  exists items m,
    extract_from_library env library_path = Ok items /\
    group_metadata (create_metadata_groups items) items = Ok m /\
    map crate_name sources = map (fun g => crate_name_of (namespace g)) (iter m) /\
    Permutation (map crate_name sources) (first_seen (namespace_names items)) /\
    lg = ECheckLibraryPath library_path (calc_cdylib_name library_path)
         :: EExtractFromLibrary library_path
         :: flat_map (fun g => [EAddMetadata g; ELoadInitialConfig crate_root None]) (iter m)
         ++ ECreateDirAll out_dir
         :: map (fun s => EWriteBindings (ci s) (config s) out_dir) sources.
Proof.
  intros Hperm H. apply generate_iter_ok in H as [lg1 [Hf ->]].
  apply find_sources_iter_ok in Hf as [items [m [He [Hg [HF ->]]]]].
  destruct (sources_of_groups _ _ _ _ _ _ HF) as [Hn [Hlog _]].
  exists items, m. repeat split; [exact He|exact Hg|exact Hn| |].
  - rewrite Hn, <- (Grouping.grouped_crate_names _ _ Hg).
    apply Permutation_map, Hperm.
  - rewrite Hlog. reflexivity.
Qed.

End OrchestratorOrder.

Lemma sources_follow_map_iteration_witness :
  exists items m,
    extract_from_library (demo_env (Ok demo_items)) "/target/debug/libcore.so" = Ok items /\
    group_metadata (create_metadata_groups items) items = Ok m /\
    map crate_name (match fst (generate_external_bindings_iter demo_config (demo_env (Ok demo_items))
                                 demo_reverse_order demo_generator
                                 "/target/debug/libcore.so" "/crate" "/out") with
                    | Ok sources => sources | Err _ => [] end)
    = map (fun g => crate_name_of (namespace g)) (demo_reverse_order m) /\
    Permutation (map crate_name (match fst (generate_external_bindings_iter demo_config
                                 (demo_env (Ok demo_items)) demo_reverse_order demo_generator
                                 "/target/debug/libcore.so" "/crate" "/out") with
                    | Ok sources => sources | Err _ => [] end))
                (first_seen (namespace_names items)) /\
    snd (generate_external_bindings_iter demo_config (demo_env (Ok demo_items))
           demo_reverse_order demo_generator "/target/debug/libcore.so" "/crate" "/out")
    = ECheckLibraryPath "/target/debug/libcore.so" (calc_cdylib_name "/target/debug/libcore.so")
      :: EExtractFromLibrary "/target/debug/libcore.so"
      :: flat_map (fun g => [EAddMetadata g; ELoadInitialConfig "/crate" None]) (demo_reverse_order m)
      ++ ECreateDirAll "/out"
      :: map (fun s => EWriteBindings (ci s) (config s) "/out")
           (match fst (generate_external_bindings_iter demo_config (demo_env (Ok demo_items))
                         demo_reverse_order demo_generator
                         "/target/debug/libcore.so" "/crate" "/out") with
            | Ok sources => sources | Err _ => [] end).
Proof.
  apply (sources_follow_map_iteration demo_config (demo_env (Ok demo_items)) demo_reverse_order
           demo_generator "/target/debug/libcore.so" "/crate" "/out").
  - intros m. unfold demo_reverse_order. apply Permutation_sym, Permutation_rev.
  - vm_compute. reflexivity.
Defined.

(** C3 refuted: under the iteration order [demo_reverse_order] of the group
    map, which the source allows ("in no particular order"), the run on
    the [core]/[net] metadata returns [net] before [core], while [core] is
    the namespace discovered first. *)
Lemma sources_in_discovery_order_counterexample :
  (forall m, Permutation (demo_reverse_order m) (into_values m)) /\
  first_seen (namespace_names demo_items) = ["core"; "net"] /\
  match fst (generate_external_bindings_iter demo_config (demo_env (Ok demo_items))
               demo_reverse_order demo_generator "/target/debug/libcore.so" "/crate" "/out") with
  | Ok sources => map crate_name sources = ["net"; "core"]
  | Err _ => False
  end.
Proof.
  split; [intros m; unfold demo_reverse_order; apply Permutation_sym, Permutation_rev|].
  split; vm_compute; reflexivity.
Qed.
